(** * aad-auth-proxy: the token provider (token_provider/token_provider.go)

    A shallow embedding of the token provider of the proxy: the refresh-time
    calculator [getRefreshDuration], a single refresh [refreshAADToken], the
    accessor [GetAccessToken], the constructor [NewTokenProvider] and the
    background loop [periodicallyRefreshClientToken].

    Go values are kept as the program has them: a [time.Duration] is a signed
    64-bit count of nanoseconds whose products wrap around, the percentage is
    a [uint8], errors are values that may be nil.  Everything the program
    obtains from outside (the wall clock, the credential client, the logger,
    the telemetry sinks) lives in an explicit [World] that the methods
    thread through a small state monad. *)

From Stdlib Require Import ZArith List String Bool Lia.
Import ListNotations.

Local Open Scope Z_scope.

(** ** Go's numeric and time primitives *)

Module GoTime.

(** An instant, as nanoseconds since a fixed epoch.  [time.Time] stores
    64-bit seconds and a nanosecond field; the embedding keeps the instant
    itself and leaves that range (hundreds of billions of years) open. *)
Definition Time := Z.

(** [time.Duration] is [int64] nanoseconds. *)
Definition Duration := Z.

Definition minDuration : Duration := - 2 ^ 63.
Definition maxDuration : Duration := 2 ^ 63 - 1.

(** Wrap-around of signed 64-bit arithmetic. *)
Definition wrap64 (x : Z) : Z := (x + 2 ^ 63) mod 2 ^ 64 - 2 ^ 63.

(** Wrap-around of [uint8] arithmetic. *)
Definition wrap8 (x : Z) : Z := x mod 2 ^ 8.

Definition Nanosecond : Duration := 1.
Definition Second : Duration := 1000000000.
Definition Minute : Duration := 60 * Second.

(** [a * b] on [Duration]. *)
Definition mul (a b : Duration) : Duration := wrap64 (a * b).

(** [a / b] on [Duration]: Go's division truncates toward zero. *)
Definition quo (a b : Duration) : Duration := wrap64 (Z.quot a b).

(** [a - b] on [uint8]. *)
Definition sub8 (a b : Z) : Z := wrap8 (a - b).

(** [t.UTC()] changes the location a time prints in, not the instant. *)
Definition UTC (t : Time) : Time := t.

(** [t.Add(d)]. *)
Definition Add (t : Time) (d : Duration) : Time := t + d.

(** [t.Sub(u)]: the difference, saturated at the ends of [Duration]. *)
Definition Sub (t u : Time) : Duration :=
  if t - u <? minDuration then minDuration
  else if maxDuration <? t - u then maxDuration
  else t - u.

(** [t.Before(u)]. *)
Definition Before (t u : Time) : bool := t <? u.

End GoTime.
Import GoTime.

(** ** A state monad for the methods *)

Definition State (S A : Type) : Type := S -> A * S.

Definition ret {S A} (a : A) : State S A := fun s => (a, s).

Definition bind {S A B} (m : State S A) (k : A -> State S B) : State S B :=
  fun s => let (a, s') := m s in k a s'.

Definition gets {S A} (f : S -> A) : State S A := fun s => (f s, s).

Definition modify {S} (f : S -> S) : State S unit := fun s => (tt, f s).

Declare Scope go_scope.
Delimit Scope go_scope with go.
Notation "x <- m ;; k" := (bind m (fun x => k))
  (at level 61, m at next level, right associativity) : go_scope.
Notation "m ;;; k" := (bind m (fun _ => k))
  (at level 61, right associativity) : go_scope.
Local Open Scope go_scope.

(** ** Values of the program *)

(** A non-nil Go [error]; [option error] is an [error] that may be nil. *)
Inductive error : Type := errorString (msg : string).

Definition Error (e : error) : string := let (m) := e in m.

Definition errors_New (msg : string) : error := errorString msg.

(** [azcore.AccessToken]. *)
Record AccessToken : Type := mkAccessToken {
  Token : string;
  ExpiresOn : Time
}.

(** [policy.TokenRequestOptions]. *)
Record TokenRequestOptions : Type := mkOptions {
  Scopes : list string
}.

(** [context.Context]; the provider only ever holds [context.Background()]. *)
Inductive Context : Type := Background.

(** [azcore.TokenCredential]: the handle of the credential client; what it
    answers is decided by the [World]. *)
Inductive TokenCredential : Type := DefaultAzureCredential.

(** What the program emits: metrics, spans, log lines, sleeps and the
    goroutines it starts. *)
Inductive Event : Type :=
| EvCounter (delta : Z)
| EvSpan (name : string) (is_success : bool)
| EvLog (msg : string) (e : error)
| EvSleep (d : Duration)
| EvGo (task : string).

(** The outside of the provider. [clock i] is what the [i]-th call of
    [time.Now()] reads; [answers i o] is what the [i]-th call of
    [GetToken] with options [o] returns. *)
Record World : Type := mkWorld {
  clock : nat -> Time;
  ticks : nat;
  answers : nat -> TokenRequestOptions -> AccessToken + error;
  calls : nat;
  newCredential : TokenCredential + error;
  trace : list Event
}.

Definition tick (w : World) : World :=
  mkWorld (clock w) (S (ticks w)) (answers w) (calls w) (newCredential w) (trace w).

Definition called (w : World) : World :=
  mkWorld (clock w) (ticks w) (answers w) (S (calls w)) (newCredential w) (trace w).

Definition emit (e : Event) (w : World) : World :=
  mkWorld (clock w) (ticks w) (answers w) (calls w) (newCredential w) (trace w ++ [e]).

(** The same world with the clock stopped at [now]: every [time.Now()]
    reads [now]. *)
Definition freeze (now : Time) (w : World) : World :=
  mkWorld (fun _ => now) (ticks w) (answers w) (calls w) (newCredential w) (trace w).

(** [time.Now()]. *)
Definition time_Now : State World Time :=
  fun w => (clock w (ticks w), tick w).

(** ** The provider *)

Record tokenProvider : Type := mkTokenProvider {
  token : string;
  ctx : Context;
  lastError : option error;
  userConfiguredDurationPercentage : Z;   (* uint8 *)
  refreshDuration : Duration;
  credentialClient : TokenCredential;
  options : TokenRequestOptions
}.

Definition set_token (v : string) (p : tokenProvider) : tokenProvider :=
  mkTokenProvider v (ctx p) (lastError p) (userConfiguredDurationPercentage p)
    (refreshDuration p) (credentialClient p) (options p).

Definition set_lastError (v : option error) (p : tokenProvider) : tokenProvider :=
  mkTokenProvider (token p) (ctx p) v (userConfiguredDurationPercentage p)
    (refreshDuration p) (credentialClient p) (options p).

Definition set_refreshDuration (v : Duration) (p : tokenProvider) : tokenProvider :=
  mkTokenProvider (token p) (ctx p) (lastError p) (userConfiguredDurationPercentage p)
    v (credentialClient p) (options p).

(** A method runs on the receiver and the world. *)
Definition Method (A : Type) : Type := State (tokenProvider * World) A.

Definition self {A} (f : tokenProvider -> A) : Method A :=
  gets (fun s => f (fst s)).

Definition assign (f : tokenProvider -> tokenProvider) : Method unit :=
  modify (fun s => (f (fst s), snd s)).

Definition outside {A} (m : State World A) : Method A :=
  fun s => let (a, w) := m (snd s) in (a, (fst s, w)).

(** Modelled from the spec: the package [constants] is declared
    in another package; section 4.1 gives [TIME_1_MINUTES] as one minute. *)
Definition TIME_1_MINUTES : Duration := 1 * Minute.

(** Modelled from the spec: the package [constants] is declared
    in another package; section 4.3 gives [TIME_5_MINUTES] as five minutes. *)
Definition TIME_5_MINUTES : Duration := 5 * Minute.

(** [getRefreshDuration]: the instant of the next refresh. *)
Definition getRefreshDuration (accessToken : AccessToken) : Method Time :=
  let tokenExpiryTimestamp := UTC (ExpiresOn accessToken) in
  now1 <- outside time_Now ;;
  percentage <- self userConfiguredDurationPercentage ;;
  now2 <- outside time_Now ;;
  let userConfiguredTimeFromNow :=
    Add (UTC now1)
        (quo (mul (sub8 100 percentage) (Sub (ExpiresOn accessToken) now2)) 100) in
  now3 <- outside time_Now ;;
  let thresholdTimestamp := Add (UTC now3) (mul (-10) Second) in
  if Before userConfiguredTimeFromNow thresholdTimestamp then
    now4 <- outside time_Now ;;
    ret (Add (UTC now4) TIME_1_MINUTES)
  else if Before userConfiguredTimeFromNow tokenExpiryTimestamp then
    ret userConfiguredTimeFromNow
  else
    now4 <- outside time_Now ;;
    ret (Add (UTC now4) TIME_1_MINUTES).

(** [sync/atomic.Value], as far as [setToken] uses it: a cell that is empty
    until the first [Store]. *)
Definition atomic_Value : Type := option string.

Definition Store (x : string) (V : atomic_Value) : atomic_Value := Some x.

Definition Load (V : atomic_Value) : option string := V.

(** [setToken]: the token goes through a fresh, local atomic cell and is
    then assigned to the field.  The type assertion [.(string)] on what
    [Load] returns cannot fail, the cell having just been stored to; the
    empty string stands for that unreachable case. *)
Definition setToken (tok : string) : Method unit :=
  let V : atomic_Value := None in
  let V := Store tok V in
  assign (set_token (match Load V with Some s => s | None => EmptyString end)).

(** [updateRefreshDuration]. *)
Definition updateRefreshDuration (accessToken : AccessToken) : Method (option error) :=
  earlistTime <- getRefreshDuration accessToken ;;
  now <- outside time_Now ;;
  assign (set_refreshDuration (Sub earlistTime (UTC now))) ;;;
  ret None.

(** [credentialClient.GetToken(ctx, options)]: the next answer of the
    credential client. *)
Definition GetToken (c : TokenCredential) (o : TokenRequestOptions)
  : State World (AccessToken + error) :=
  fun w => (answers w (calls w) o, called w).

Definition record (e : Event) : Method unit := outside (modify (emit e)).

(** [refreshAADToken]: one refresh attempt.  The span is closed by the
    deferred [span.End()], hence recorded last. *)
Definition refreshAADToken : Method (option error) :=
  client <- self credentialClient ;;
  opts <- self options ;;
  r <- outside (GetToken client opts) ;;
  match r with
  | inr err =>
      record (EvCounter 1) ;;;
      assign (set_lastError (Some err)) ;;;
      record (EvSpan "refreshAADToken" false) ;;;
      ret (Some err)
  | inl accessToken =>
      assign (set_lastError None) ;;;
      record (EvCounter 1) ;;;
      setToken (Token accessToken) ;;;
      _ <- updateRefreshDuration accessToken ;;
      _ <- outside time_Now ;;
      record (EvSpan "refreshAADToken" true) ;;;
      ret None
  end.

(** [GetAccessToken]. *)
Definition GetAccessToken : Method (string * option error) :=
  self (fun p => (token p, lastError p)).

(** [ctx.Done()] is ready: never, for [context.Background()]. *)
Definition Done (c : Context) : bool :=
  match c with Background => false end.

(** Modelled from the spec: the interface [contracts.ILogger] is declared in
    another package; section 6 has it take a structured error log. *)
Inductive ILogger : Type := Logger.

Definition logger_Error (l : ILogger) (msg : string) (e : error) : Method unit :=
  record (EvLog msg e).

(** Modelled from the spec: the interface [utils.IConfiguration] is
    declared in another package; section 3 has it carry the refresh percentage,
    a [uint8]. *)
Record IConfiguration : Type := mkConfiguration {
  GetAadTokenRefreshDurationInPercentage : Z
}.

(** [periodicallyRefreshClientToken]: the background loop.  Each unit of
    fuel pays for one round of the [for]; [None] says the loop is still
    running when the fuel is spent, [Some r] that it returned [r]. *)
Fixpoint periodicallyRefreshClientToken (fuel : nat) (logger : ILogger)
  : Method (option (option error)) :=
  match fuel with
  | O => ret None
  | S fuel' =>
      c <- self ctx ;;
      if Done c then ret (Some None)
      else
        d <- self refreshDuration ;;
        record (EvSleep d) ;;;
        err <- refreshAADToken ;;
        match err with
        | Some e =>
            assign (set_refreshDuration TIME_5_MINUTES) ;;;
            logger_Error logger "Failed to refresh token, retry in 5 minutes" e ;;;
            ret (Some (Some (errors_New ("Failed to refresh token: " ++ Error e))))
        | None => periodicallyRefreshClientToken fuel' logger
        end
  end.

(** [azidentity.NewDefaultAzureCredential(nil)]. *)
Definition NewDefaultAzureCredential : State World (TokenCredential + error) :=
  gets newCredential.

(** [NewTokenProvider].  A nil interface value is [None].  The field
    [refreshDuration] is not named by the composite literal and starts at
    zero.  The [go] statement is recorded in the trace; the loop it starts
    is [periodicallyRefreshClientToken] run on the provider returned. *)
Definition NewTokenProvider (audience : string)
    (config : option IConfiguration) (logger : option ILogger)
  : State World (option tokenProvider * option error) :=
  match config, logger with
  | Some config, Some logger =>
      let userConfiguredDurationPercentage :=
        GetAadTokenRefreshDurationInPercentage config in
      r <- NewDefaultAzureCredential ;;
      match r with
      | inr err => ret (None, Some err)
      | inl cred =>
          let tokenProvider :=
            mkTokenProvider "" Background None userConfiguredDurationPercentage
              0 cred (mkOptions [audience]) in
          fun w =>
            let '(err, (tokenProvider, w)) := refreshAADToken (tokenProvider, w) in
            match err with
            | Some e =>
                ((None, Some (errors_New ("Failed to get access token: " ++ Error e))), w)
            | None =>
                ((Some tokenProvider, None),
                 emit (EvGo "periodicallyRefreshClientToken") w)
            end
      end
  | _, _ =>
      ret (None, Some (errors_New "NewTokenProvider: Required arguments canot be nil"))
  end.

(** ** The calculator of section 4.1, in the spec's words *)

Module Spec.

(** The spec writes [/] and does not say how a negative quotient is
    rounded; both readings are kept. *)
Inductive rounding : Type := Truncate | Floor.

Definition divide (rd : rounding) (a b : Z) : Z :=
  match rd with
  | Truncate => Z.quot a b
  | Floor => Z.div a b
  end.

Definition remaining (now expiresAt : Z) : Z := expiresAt - now.

Definition candidate (rd : rounding) (now expiresAt percentage : Z) : Z :=
  now + divide rd (remaining now expiresAt * (100 - percentage)) 100.

Definition threshold (now : Z) : Z := now - 10 * Second.

Definition nextRefresh (rd : rounding) (now expiresAt percentage : Z) : Z :=
  if candidate rd now expiresAt percentage <? threshold now then
    now + 1 * Minute
  else if candidate rd now expiresAt percentage <? expiresAt then
    candidate rd now expiresAt percentage
  else
    now + 1 * Minute.

End Spec.

(** ** Auxiliary definitions *)

(** What the local variable [userConfiguredTimeFromNow] holds when every
    reading of the clock is [now]. *)
Definition userConfiguredTimeFromNow (now expiresAt : Time) (percentage : Z) : Time :=
  Add now (quo (mul (sub8 100 percentage) (Sub expiresAt now)) 100).

(** Goroutines started so far. *)
Definition started (w : World) : nat :=
  List.length (filter (fun ev => match ev with EvGo _ => true | _ => false end)
                 (trace w)).

(** Sample values for the closed statements below. *)
Definition quietWorld : World :=
  mkWorld (fun _ => 0) 0 (fun _ _ => inr (errorString "unavailable")) 0
    (inl DefaultAzureCredential) [].

Definition providerWith (percentage : Z) : tokenProvider :=
  mkTokenProvider "" Background None percentage 0 DefaultAzureCredential
    (mkOptions ["audience"%string]).

(** The same world with a clock that advances: the [i]-th reading is
    [start + step * i]. *)
Definition advancing (start step : Z) (w : World) : World :=
  mkWorld (fun i => start + step * Z.of_nat i) (ticks w) (answers w) (calls w)
    (newCredential w) (trace w).

(** A credential client that answers from a script, then fails. *)
Definition scripted (l : list (AccessToken + error))
  : nat -> TokenRequestOptions -> AccessToken + error :=
  fun i _ => nth i l (inr (errorString "unavailable")).

Definition worldWith (l : list (AccessToken + error)) : World :=
  mkWorld (fun _ => 0) 0 (scripted l) 0 (inl DefaultAzureCredential) [].

(** ** Arithmetic of [Duration] *)

Section DurationArithmetic.

Lemma wrap64_small (x : Z) :
  minDuration <= x <= maxDuration -> wrap64 x = x.
Proof.
  unfold wrap64, minDuration, maxDuration. intros H.
  rewrite Z.mod_small; lia.
Qed.

Lemma wrap64_range (x : Z) : minDuration <= wrap64 x <= maxDuration.
Proof.
  unfold wrap64, minDuration, maxDuration.
  pose proof (Z.mod_pos_bound (x + 2 ^ 63) (2 ^ 64) ltac:(lia)). lia.
Qed.

Lemma sub8_percentage (p : Z) : 0 <= p <= 100 -> sub8 100 p = 100 - p.
Proof.
  intros H. unfold sub8, wrap8. apply Z.mod_small. lia.
Qed.

Lemma Sub_range (t u : Time) : minDuration <= Sub t u <= maxDuration.
Proof.
  unfold Sub, minDuration, maxDuration.
  destruct (Z.ltb_spec (t - u) (- 2 ^ 63)); [lia|].
  destruct (Z.ltb_spec (2 ^ 63 - 1) (t - u)); lia.
Qed.

Lemma Sub_exact (t u : Time) :
  minDuration <= t - u <= maxDuration -> Sub t u = t - u.
Proof.
  unfold Sub, minDuration, maxDuration. intros H.
  destruct (Z.ltb_spec (t - u) (- 2 ^ 63)); [lia|].
  destruct (Z.ltb_spec (2 ^ 63 - 1) (t - u)); lia.
Qed.

(** A difference that is not positive is only ever rounded up. *)
Lemma Sub_nonpos (t u : Time) : t <= u -> t - u <= Sub t u <= 0.
Proof.
  unfold Sub, minDuration, maxDuration. intros H.
  destruct (Z.ltb_spec (t - u) (- 2 ^ 63)); [lia|].
  destruct (Z.ltb_spec (2 ^ 63 - 1) (t - u)); lia.
Qed.

Lemma quo_exact (a : Duration) :
  minDuration <= a <= maxDuration -> quo a 100 = Z.quot a 100.
Proof.
  intros H. unfold quo. apply wrap64_small.
  unfold minDuration, maxDuration in *.
  destruct (Z.le_gt_cases 0 a) as [Ha|Ha].
  - pose proof (Z.quot_pos a 100 Ha ltac:(lia)).
    pose proof (Z.quot_le_mono a (100 * a) 100 ltac:(lia) ltac:(lia)) as Hm.
    rewrite (Z.mul_comm 100 a), Z.quot_mul in Hm by lia. lia.
  - pose proof (Z.quot_le_mono a 0 100 ltac:(lia) ltac:(lia)) as Hz.
    rewrite Z.quot_0_l in Hz by lia.
    pose proof (Z.quot_le_mono (100 * a) a 100 ltac:(lia) ltac:(lia)) as Hm.
    rewrite (Z.mul_comm 100 a), Z.quot_mul in Hm by lia. lia.
Qed.

(** The scaled lifetime, when the product fits a [Duration]. *)
Lemma scaled_exact (p : Z) (now expiresAt : Time) :
  0 <= p <= 100 ->
  now <= expiresAt ->
  (expiresAt - now) * (100 - p) <= maxDuration ->
  quo (mul (sub8 100 p) (Sub expiresAt now)) 100
  = Z.quot ((expiresAt - now) * (100 - p)) 100.
Proof.
  intros Hp Hle Hfit. rewrite sub8_percentage by assumption.
  destruct (Z.eq_dec p 100) as [->|Hne].
  - unfold mul. simpl (100 - 100). rewrite Z.mul_0_l, Z.mul_0_r.
    reflexivity.
  - assert (Hr : expiresAt - now <= maxDuration) by nia.
    rewrite Sub_exact by (unfold minDuration, maxDuration in *; lia).
    unfold mul. rewrite (Z.mul_comm (100 - p)).
    rewrite wrap64_small by (unfold minDuration, maxDuration in *; nia).
    apply quo_exact. unfold minDuration, maxDuration in *. nia.
Qed.

(** The scaled lifetime of an expired token never falls below the
    lifetime itself, wrap-around included. *)
Lemma scaled_expired (p : Z) (now expiresAt : Time) :
  0 <= p <= 100 ->
  expiresAt <= now ->
  expiresAt - now <= quo (mul (sub8 100 p) (Sub expiresAt now)) 100.
Proof.
  intros Hp Hle. rewrite sub8_percentage by assumption.
  pose proof (Sub_nonpos expiresAt now Hle) as [Hlo Hhi].
  pose proof (Sub_range expiresAt now) as [Hmin _].
  set (r := Sub expiresAt now) in *.
  pose proof (wrap64_range ((100 - p) * r)) as Hw.
  rewrite quo_exact by exact Hw.
  apply Z.le_trans with r; [exact Hlo|].
  destruct (Z.le_gt_cases minDuration ((100 - p) * r)) as [Hfit|Hover].
  - unfold mul. rewrite wrap64_small by (unfold minDuration, maxDuration in *; nia).
    pose proof (Z.quot_le_mono (r * 100) ((100 - p) * r) 100 ltac:(lia) ltac:(nia)) as Hm.
    rewrite Z.quot_mul in Hm by lia. exact Hm.
  - unfold mul.
    pose proof (Z.quot_le_mono minDuration (wrap64 ((100 - p) * r)) 100
                  ltac:(lia) (proj1 Hw)) as Hm.
    assert (Hq : Z.quot minDuration 100 = -92233720368547758) by reflexivity.
    rewrite Hq in Hm.
    unfold minDuration in Hover. nia.
Qed.

End DurationArithmetic.

(** ** The calculator under a stopped clock *)

Lemma getRefreshDuration_frozen (accessToken : AccessToken) (p : tokenProvider)
    (w : World) (now : Time) :
  fst (getRefreshDuration accessToken (p, freeze now w)) =
  let c := userConfiguredTimeFromNow now (ExpiresOn accessToken)
             (userConfiguredDurationPercentage p) in
  if c <? now - 10 * Second then now + 1 * Minute
  else if c <? ExpiresOn accessToken then c
  else now + 1 * Minute.
Proof.
  unfold getRefreshDuration, userConfiguredTimeFromNow, bind, outside, self,
    gets, ret, time_Now, Before, Add, UTC, TIME_1_MINUTES.
  cbn [fst snd freeze tick clock ticks].
  replace (mul (-10) Second) with (- (10 * Second)) by reflexivity.
  rewrite Z.add_opp_r.
  destruct (_ <? now - 10 * Second); cbn [fst snd]; [reflexivity|].
  destruct (_ <? ExpiresOn accessToken); reflexivity.
Qed.

(** Both roundings of the spec agree on where an expired token's candidate
    lies: at or after the expiry. *)
Lemma Spec_candidate_expired (rd : Spec.rounding) (now expiresAt p : Z) :
  0 <= p <= 100 -> expiresAt <= now ->
  expiresAt <= Spec.candidate rd now expiresAt p.
Proof.
  intros Hp Hle. unfold Spec.candidate, Spec.remaining, Spec.divide.
  set (r := expiresAt - now). assert (Hr : r <= 0) by (subst r; lia).
  assert (Hs : r * 100 <= r * (100 - p)) by nia.
  destruct rd.
  - pose proof (Z.quot_le_mono _ _ 100 ltac:(lia) Hs) as Hm.
    rewrite Z.quot_mul in Hm by lia. lia.
  - pose proof (Z.div_le_mono _ _ 100 ltac:(lia) Hs) as Hm.
    rewrite Z.div_mul in Hm by lia. lia.
Qed.

Lemma Spec_nextRefresh_expired (rd : Spec.rounding) (now expiresAt p : Z) :
  0 <= p <= 100 -> expiresAt <= now ->
  Spec.nextRefresh rd now expiresAt p = now + 1 * Minute.
Proof.
  intros Hp Hle. unfold Spec.nextRefresh.
  pose proof (Spec_candidate_expired rd now expiresAt p Hp Hle) as Hc.
  destruct (_ <? Spec.threshold now); [reflexivity|].
  destruct (Z.ltb_spec (Spec.candidate rd now expiresAt p) expiresAt); [lia|reflexivity].
Qed.

Lemma getRefreshDuration_expired (accessToken : AccessToken) (p : tokenProvider)
    (w : World) (now : Time) :
  0 <= userConfiguredDurationPercentage p <= 100 ->
  ExpiresOn accessToken <= now ->
  fst (getRefreshDuration accessToken (p, freeze now w)) = now + 1 * Minute.
Proof.
  intros Hp Hle. rewrite getRefreshDuration_frozen. cbv zeta.
  pose proof (scaled_expired _ _ _ Hp Hle) as Hs.
  unfold userConfiguredTimeFromNow, Add.
  destruct (_ <? now - 10 * Second); [reflexivity|].
  destruct (Z.ltb_spec
              (now + quo (mul (sub8 100 (userConfiguredDurationPercentage p))
                            (Sub (ExpiresOn accessToken) now)) 100)
              (ExpiresOn accessToken)); [lia|reflexivity].
Qed.

(** With a lifetime that is not negative and a product that fits, the
    candidate of the code is the candidate of the spec. *)
Lemma userConfiguredTimeFromNow_exact (rd : Spec.rounding) (now expiresAt p : Z) :
  0 <= p <= 100 -> now <= expiresAt ->
  (expiresAt - now) * (100 - p) <= maxDuration ->
  userConfiguredTimeFromNow now expiresAt p = Spec.candidate rd now expiresAt p.
Proof.
  intros Hp Hle Hfit. unfold userConfiguredTimeFromNow, Add, Spec.candidate,
    Spec.remaining, Spec.divide.
  rewrite scaled_exact by assumption.
  destruct rd; [reflexivity|].
  rewrite Z.quot_div_nonneg by nia. reflexivity.
Qed.

(** ** The refresh-time calculator *)

(** C1, as stated, fails: a token that lives 2 * 10^17 ns (a little over six
    years) at percentage 50 makes [50 * lifetime] leave the range of
    [Duration]; the product wraps to a negative value, the code takes the
    first branch and answers [now + 1 minute], where section 4.1 answers the
    candidate [now + 10^17]. *)
Lemma getRefreshDuration_wraps_at_long_lifetime :
  fst (getRefreshDuration (mkAccessToken "t" (2 * 10 ^ 17))
         (providerWith 50, freeze 0 quietWorld)) = 0 + 1 * Minute
  /\ Spec.nextRefresh Spec.Truncate 0 (2 * 10 ^ 17) 50 = 10 ^ 17
  /\ Spec.nextRefresh Spec.Floor 0 (2 * 10 ^ 17) 50 = 10 ^ 17
  /\ 0 + 1 * Minute <> 10 ^ 17.
Proof.
  repeat split; try reflexivity. intros H; discriminate H.
Qed.

(** C1 (amended): for every [now], expiry and percentage in [0,100] such
    that (expiresAt - now) * (100 - percentage) does not exceed the largest
    [Duration], [getRefreshDuration] under a clock stopped at [now] returns
    what the three-branch algorithm of section 4.1 returns, whichever way
    its division rounds. *)
Theorem getRefreshDuration_three_branch (rd : Spec.rounding)
    (accessToken : AccessToken) (p : tokenProvider) (w : World) (now : Time) :
  0 <= userConfiguredDurationPercentage p <= 100 ->
  (ExpiresOn accessToken - now) * (100 - userConfiguredDurationPercentage p)
    <= maxDuration ->
  fst (getRefreshDuration accessToken (p, freeze now w)) =
  Spec.nextRefresh rd now (ExpiresOn accessToken) (userConfiguredDurationPercentage p).
Proof.
  intros Hp Hfit.
  destruct (Z.le_gt_cases now (ExpiresOn accessToken)) as [Hle|Hgt].
  - rewrite getRefreshDuration_frozen. cbv zeta.
    rewrite (userConfiguredTimeFromNow_exact rd) by assumption.
    reflexivity.
  - rewrite getRefreshDuration_expired by (assumption || lia).
    rewrite Spec_nextRefresh_expired by (assumption || lia).
    reflexivity.
Qed.

Lemma getRefreshDuration_three_branch_witness :
  0 <= userConfiguredDurationPercentage (providerWith 80) <= 100
  /\ (ExpiresOn (mkAccessToken "t" (6000 * Second)) - 0)
       * (100 - userConfiguredDurationPercentage (providerWith 80)) <= maxDuration
  /\ fst (getRefreshDuration (mkAccessToken "t" (6000 * Second))
            (providerWith 80, freeze 0 quietWorld)) =
     Spec.nextRefresh Spec.Truncate 0 (6000 * Second) 80.
Proof.
  assert (H1 : 0 <= userConfiguredDurationPercentage (providerWith 80) <= 100)
    by (simpl; lia).
  assert (H2 : (ExpiresOn (mkAccessToken "t" (6000 * Second)) - 0)
       * (100 - userConfiguredDurationPercentage (providerWith 80)) <= maxDuration)
    by (vm_compute; intros H; discriminate H).
  split; [exact H1|split; [exact H2|]].
  exact (getRefreshDuration_three_branch Spec.Truncate
           (mkAccessToken "t" (6000 * Second)) (providerWith 80) quietWorld 0 H1 H2).
Defined.

(** C2: the comment in [getRefreshDuration] promises a refresh in one
    minute for a token that expires within ten seconds; the code does not
    do that.  At [now = 0], an expiry 5 s later and percentage 50, the
    lifetime is below ten seconds and the result is the candidate, 2.5 s
    after [now], not [now + 1 minute]. *)
Theorem getRefreshDuration_short_lifetime :
  5 * Second - 0 <= 10 * Second
  /\ fst (getRefreshDuration (mkAccessToken "t" (5 * Second))
            (providerWith 50, freeze 0 quietWorld)) = 2500000000
  /\ 2500000000 <> 0 + 1 * Minute.
Proof.
  split; [vm_compute; intros H; discriminate H|].
  split; [reflexivity|intros H; discriminate H].
Qed.

(** C3, as stated, fails: at percentage 100 the candidate is [now] itself;
    it is neither below the threshold nor at or after the expiry, so the
    normal branch returns it, and [now] is not strictly later than [now]. *)
Lemma getRefreshDuration_immediate_at_100 :
  0 < 3600 * Second
  /\ ~ (Spec.candidate Spec.Truncate 0 (3600 * Second) 100 < Spec.threshold 0)
  /\ ~ (3600 * Second <= Spec.candidate Spec.Truncate 0 (3600 * Second) 100)
  /\ fst (getRefreshDuration (mkAccessToken "t" (3600 * Second))
            (providerWith 100, freeze 0 quietWorld)) = 0
  /\ ~ (0 < 0).
Proof.
  repeat split; try reflexivity; vm_compute; intros H;
    try discriminate H; apply H; reflexivity.
Qed.

(** Outside the range of [Duration] the result can even precede [now]: a
    lifetime of 4611686018427387879 ns at percentage 96 makes the product
    wrap to -100 ns, and the normal branch returns [now - 1 ns]. *)
Lemma getRefreshDuration_precedes_now_at_wrap :
  fst (getRefreshDuration (mkAccessToken "t" (7 + 4611686018427387879))
         (providerWith 96, freeze 7 quietWorld)) = 6.
Proof. reflexivity. Qed.

(** Between two readings of the clock the result moves too: for a token
    valid for 100 minutes at percentage 0, on a clock that advances 1 ns per
    reading, the candidate is 1 ns before the expiry and is returned, where
    a stopped clock gives one minute after [now]. *)
Lemma getRefreshDuration_advancing_clock_at_0 :
  fst (getRefreshDuration (mkAccessToken "t" (6000 * Second))
         (providerWith 0, advancing 0 1 quietWorld)) = 6000 * Second - 1
  /\ fst (getRefreshDuration (mkAccessToken "t" (6000 * Second))
            (providerWith 0, freeze 0 quietWorld)) = 0 + 1 * Minute.
Proof. split; reflexivity. Qed.

(** C3 (amended): with the clock stopped at [now] (every reading of the
    clock is [now]), for every expiry strictly later than [now]
    and every percentage in [0,100] such that
    (expiresAt - now) * (100 - percentage) does not exceed the largest
    [Duration], [getRefreshDuration] returns exactly [now + 1 minute] in
    the fallback branches and otherwise the candidate, a timestamp at or
    after [now]; it is strictly later than [now] as soon as
    (expiresAt - now) * (100 - percentage) reaches 100 ns. *)
Theorem getRefreshDuration_not_before_now (rd : Spec.rounding)
    (accessToken : AccessToken) (p : tokenProvider) (w : World) (now : Time) :
  now < ExpiresOn accessToken ->
  0 <= userConfiguredDurationPercentage p <= 100 ->
  (ExpiresOn accessToken - now) * (100 - userConfiguredDurationPercentage p)
    <= maxDuration ->
  let t := fst (getRefreshDuration accessToken (p, freeze now w)) in
  let c := Spec.candidate rd now (ExpiresOn accessToken)
             (userConfiguredDurationPercentage p) in
  (c < Spec.threshold now \/ ExpiresOn accessToken <= c -> t = now + 1 * Minute)
  /\ (~ (c < Spec.threshold now \/ ExpiresOn accessToken <= c) -> t = c /\ now <= t)
  /\ (100 <= (ExpiresOn accessToken - now) * (100 - userConfiguredDurationPercentage p)
      -> now < t).
Proof.
  intros Hlt Hp Hfit t c.
  assert (Ht : t = if c <? Spec.threshold now then now + 1 * Minute
                   else if c <? ExpiresOn accessToken then c
                   else now + 1 * Minute)
    by (subst t c; rewrite getRefreshDuration_frozen; cbv zeta;
        rewrite (userConfiguredTimeFromNow_exact rd) by (assumption || lia);
        reflexivity).
  assert (Hc : c = now + Z.quot ((ExpiresOn accessToken - now)
                 * (100 - userConfiguredDurationPercentage p)) 100).
  { subst c. rewrite <- (userConfiguredTimeFromNow_exact rd) by (assumption || lia).
    unfold userConfiguredTimeFromNow, Add.
    rewrite scaled_exact by (assumption || lia). reflexivity. }
  set (x := (ExpiresOn accessToken - now) * (100 - userConfiguredDurationPercentage p)) in *.
  assert (Hx : 0 <= x) by (subst x; nia).
  pose proof (Z.quot_pos x 100 Hx ltac:(lia)) as Hq.
  assert (Hq1 : 100 <= x -> 1 <= Z.quot x 100).
  { intros H. pose proof (Z.quot_le_mono 100 x 100 ltac:(lia) H) as Hm.
    exact Hm. }
  clearbody c t.
  unfold Spec.threshold, Minute, Second in *.
  destruct (Z.ltb_spec c (now - 10 * 1000000000)) as [H1|H1].
  - repeat split; intros; lia.
  - destruct (Z.ltb_spec c (ExpiresOn accessToken)) as [H2|H2].
    + repeat split; intros; lia.
    + repeat split; intros; lia.
Qed.

Lemma getRefreshDuration_not_before_now_witness :
  0 < ExpiresOn (mkAccessToken "t" (6000 * Second))
  /\ 0 <= userConfiguredDurationPercentage (providerWith 80) <= 100
  /\ (ExpiresOn (mkAccessToken "t" (6000 * Second)) - 0)
       * (100 - userConfiguredDurationPercentage (providerWith 80)) <= maxDuration
  /\ 0 < fst (getRefreshDuration (mkAccessToken "t" (6000 * Second))
                (providerWith 80, freeze 0 quietWorld)).
Proof.
  assert (H0 : 0 < ExpiresOn (mkAccessToken "t" (6000 * Second))) by reflexivity.
  assert (H1 : 0 <= userConfiguredDurationPercentage (providerWith 80) <= 100)
    by (simpl; lia).
  assert (H2 : (ExpiresOn (mkAccessToken "t" (6000 * Second)) - 0)
       * (100 - userConfiguredDurationPercentage (providerWith 80)) <= maxDuration)
    by (vm_compute; intros H; discriminate H).
  split; [exact H0|split; [exact H1|split; [exact H2|]]].
  refine (proj2 (proj2 (getRefreshDuration_not_before_now Spec.Truncate
           (mkAccessToken "t" (6000 * Second)) (providerWith 80) quietWorld 0
           H0 H1 H2)) _).
  vm_compute. intros H; discriminate H.
Defined.

(** C9: the comment in [getRefreshDuration] promises a refresh in one
    minute for a token received expired; on a clock that advances between
    the readings the code does not keep to it.  With readings 50 ns apart
    starting 5 s after the expiry, at percentage 0, the candidate is the
    first reading plus the lifetime seen at the second, 50 ns before the
    expiry: not below the threshold and before the expiry, so the normal
    branch returns it.  The result lies before every reading of the clock
    and is one minute after none of them.  At percentage 50, 10 ns after
    the expiry, the same happens. *)
Theorem getRefreshDuration_expired_on_advancing_clock :
  let w := advancing (5 * Second) 50 quietWorld in
  let t := fst (getRefreshDuration (mkAccessToken "t" 0) (providerWith 0, w)) in
  ExpiresOn (mkAccessToken "t" 0) <= clock w 0
  /\ t = -50
  /\ t < clock w 0
  /\ t <> clock w 0 + 1 * Minute
  /\ t <> clock w 1 + 1 * Minute
  /\ t <> clock w 2 + 1 * Minute
  /\ t <> clock w 3 + 1 * Minute
  /\ fst (getRefreshDuration (mkAccessToken "t" (-10))
            (providerWith 50, advancing 0 50 quietWorld)) = -30.
Proof.
  cbv zeta. repeat split; try reflexivity;
    vm_compute; intros H; discriminate H.
Qed.

(** X13: with the clock stopped at [now], for every token that has already
    expired (expiry at or before [now]) and every percentage in [0,100],
    [getRefreshDuration] returns exactly [now + 1 minute]: the candidate is
    never before the expiry, so the branch that returns the candidate is
    out of reach.  Holds with the wrap-around of [Duration] included. *)
Theorem getRefreshDuration_expired_token (accessToken : AccessToken)
    (p : tokenProvider) (w : World) (now : Time) :
  0 <= userConfiguredDurationPercentage p <= 100 ->
  ExpiresOn accessToken <= now ->
  fst (getRefreshDuration accessToken (p, freeze now w)) = now + 1 * Minute
  /\ ExpiresOn accessToken <=
       userConfiguredTimeFromNow now (ExpiresOn accessToken)
         (userConfiguredDurationPercentage p).
Proof.
  intros Hp Hle. split.
  - apply getRefreshDuration_expired; assumption.
  - pose proof (scaled_expired _ _ _ Hp Hle).
    unfold userConfiguredTimeFromNow, Add. lia.
Qed.

Lemma getRefreshDuration_expired_token_witness :
  0 <= userConfiguredDurationPercentage (providerWith 37) <= 100
  /\ ExpiresOn (mkAccessToken "t" (-5)) <= 0
  /\ fst (getRefreshDuration (mkAccessToken "t" (-5))
            (providerWith 37, freeze 0 quietWorld)) = 0 + 1 * Minute.
Proof.
  assert (H1 : 0 <= userConfiguredDurationPercentage (providerWith 37) <= 100)
    by (simpl; lia).
  assert (H2 : ExpiresOn (mkAccessToken "t" (-5)) <= 0)
    by (vm_compute; intros H; discriminate H).
  split; [exact H1|split; [exact H2|]].
  exact (proj1 (getRefreshDuration_expired_token (mkAccessToken "t" (-5))
                  (providerWith 37) quietWorld 0 H1 H2)).
Defined.

(** ** One refresh attempt *)

Ltac run_method :=
  unfold refreshAADToken, updateRefreshDuration, getRefreshDuration, setToken,
    GetAccessToken, record, GetToken, time_Now, bind, ret, self, assign,
    outside, gets, modify, Store, Load;
  cbn [fst snd].

(** A failed attempt: [lastError] is assigned, the rest of the provider is
    left as it was. *)
Lemma refreshAADToken_failure (p : tokenProvider) (w : World) (e : error) :
  answers w (calls w) (options p) = inr e ->
  refreshAADToken (p, w) =
  (Some e, (set_lastError (Some e) p,
            emit (EvSpan "refreshAADToken" false) (emit (EvCounter 1) (called w)))).
Proof.
  intros H. run_method. rewrite H. reflexivity.
Qed.

(** A successful attempt. *)
Lemma refreshAADToken_success (p : tokenProvider) (w : World) (tok : AccessToken) :
  answers w (calls w) (options p) = inl tok ->
  exists (d : Duration) (n : nat),
    refreshAADToken (p, w) =
    (None,
     (mkTokenProvider (Token tok) (ctx p) None (userConfiguredDurationPercentage p)
        d (credentialClient p) (options p),
      mkWorld (clock w) n (answers w) (S (calls w)) (newCredential w)
        (trace w ++ [EvCounter 1; EvSpan "refreshAADToken" true]))).
Proof.
  intros H. run_method. rewrite H. cbn [fst snd].
  unfold emit, tick, called, set_token, set_lastError, set_refreshDuration.
  cbn [clock ticks answers calls newCredential trace token ctx lastError
       userConfiguredDurationPercentage refreshDuration credentialClient options].
  destruct (Before _ _); [|destruct (Before _ _)];
    cbn [fst snd clock ticks answers calls newCredential trace token ctx
         lastError userConfiguredDurationPercentage refreshDuration
         credentialClient options];
    rewrite <- app_assoc; cbn [app];
    eexists; eexists; reflexivity.
Qed.

Lemma GetAccessToken_reads (s : tokenProvider * World) :
  GetAccessToken s = ((token (fst s), lastError (fst s)), s).
Proof. reflexivity. Qed.

(** C5: after a failed refresh attempt, [GetAccessToken] returns the token
    stored before the attempt together with the new error; reading does not
    change the provider, so the error stays until the next attempt, and a
    later successful refresh sets it back to nil. *)
Theorem GetAccessToken_after_failure (p : tokenProvider) (w : World) (e : error) :
  answers w (calls w) (options p) = inr e ->
  let s := snd (refreshAADToken (p, w)) in
  fst (refreshAADToken (p, w)) = Some e
  /\ fst (GetAccessToken s) = (token p, Some e)
  /\ snd (GetAccessToken s) = s
  /\ (forall tok : AccessToken,
        answers (snd s) (calls (snd s)) (options (fst s)) = inl tok ->
        fst (GetAccessToken (snd (refreshAADToken s))) = (Token tok, None)).
Proof.
  intros H s. subst s. rewrite (refreshAADToken_failure p w e H).
  cbn [fst snd]. repeat split.
  intros tok Htok.
  destruct (refreshAADToken_success _ _ tok Htok) as (d & n & Hs).
  rewrite Hs. reflexivity.
Qed.

Lemma GetAccessToken_after_failure_witness :
  answers (worldWith [inr (errorString "timeout")])
    (calls (worldWith [inr (errorString "timeout")]))
    (options (set_token "old" (providerWith 80))) = inr (errorString "timeout")
  /\ fst (GetAccessToken
            (snd (refreshAADToken (set_token "old" (providerWith 80),
                                   worldWith [inr (errorString "timeout")]))))
     = ("old"%string, Some (errorString "timeout")).
Proof.
  assert (H : answers (worldWith [inr (errorString "timeout")])
    (calls (worldWith [inr (errorString "timeout")]))
    (options (set_token "old" (providerWith 80))) = inr (errorString "timeout"))
    by reflexivity.
  split; [exact H|].
  exact (proj1 (proj2 (GetAccessToken_after_failure
           (set_token "old" (providerWith 80))
           (worldWith [inr (errorString "timeout")]) (errorString "timeout") H))).
Defined.

(** The first refresh, made by [NewTokenProvider], succeeding. *)
Lemma NewTokenProvider_success (audience : string) (config : IConfiguration)
    (logger : ILogger) (w : World) (cred : TokenCredential) (tok : AccessToken) :
  newCredential w = inl cred ->
  answers w (calls w) (mkOptions [audience]) = inl tok ->
  exists (d : Duration) (n : nat),
    NewTokenProvider audience (Some config) (Some logger) w =
    ((Some (mkTokenProvider (Token tok) Background None
              (GetAadTokenRefreshDurationInPercentage config) d cred
              (mkOptions [audience])), None),
     mkWorld (clock w) n (answers w) (S (calls w)) (newCredential w)
       (trace w ++ [EvCounter 1; EvSpan "refreshAADToken" true;
                    EvGo "periodicallyRefreshClientToken"])).
Proof.
  intros Hc Ht. unfold NewTokenProvider, NewDefaultAzureCredential, bind, gets.
  rewrite Hc.
  destruct (refreshAADToken_success
              (mkTokenProvider "" Background None
                 (GetAadTokenRefreshDurationInPercentage config) 0 cred
                 (mkOptions [audience])) w tok Ht) as (d & n & Hs).
  rewrite Hs. exists d, n. unfold emit.
  cbn [clock ticks answers calls newCredential trace ctx
       userConfiguredDurationPercentage credentialClient options].
  rewrite <- app_assoc, ?Hc. reflexivity.
Qed.

(** C6: after a successful refresh, [GetAccessToken] returns the token just
    fetched and a nil error; so it does on the provider that
    [NewTokenProvider] returns, whose first refresh is made during
    construction. *)
Theorem GetAccessToken_after_success (p : tokenProvider) (w : World)
    (tok : AccessToken) (audience : string) (config : IConfiguration)
    (logger : ILogger) (w0 : World) (cred : TokenCredential) (tok0 : AccessToken) :
  answers w (calls w) (options p) = inl tok ->
  newCredential w0 = inl cred ->
  answers w0 (calls w0) (mkOptions [audience]) = inl tok0 ->
  (fst (refreshAADToken (p, w)) = None
   /\ fst (GetAccessToken (snd (refreshAADToken (p, w)))) = (Token tok, None))
  /\ (exists (p0 : tokenProvider) (w1 : World),
        NewTokenProvider audience (Some config) (Some logger) w0
          = ((Some p0, None), w1)
        /\ fst (GetAccessToken (p0, w1)) = (Token tok0, None)).
Proof.
  intros H Hc H0. split.
  - destruct (refreshAADToken_success p w tok H) as (d & n & Hs).
    rewrite Hs. split; reflexivity.
  - destruct (NewTokenProvider_success audience config logger w0 cred tok0 Hc H0)
      as (d & n & Hs).
    rewrite Hs. eexists; eexists; split; reflexivity.
Qed.

Lemma GetAccessToken_after_success_witness :
  fst (GetAccessToken
         (snd (refreshAADToken
                 (set_token "old" (providerWith 80),
                  worldWith [inl (mkAccessToken "new" (3600 * Second))]))))
  = ("new"%string, None).
Proof.
  refine (proj2 (proj1 (GetAccessToken_after_success
           (set_token "old" (providerWith 80))
           (worldWith [inl (mkAccessToken "new" (3600 * Second))])
           (mkAccessToken "new" (3600 * Second))
           "audience" (mkConfiguration 80) Logger
           (worldWith [inl (mkAccessToken "first" (3600 * Second))])
           DefaultAzureCredential
           (mkAccessToken "first" (3600 * Second)) _ _ _))); reflexivity.
Defined.

(** ** The background loop *)

(** One round of the loop, in terms of the refresh attempt it makes. *)
Lemma periodicallyRefreshClientToken_round (fuel : nat) (logger : ILogger)
    (p : tokenProvider) (w : World) :
  periodicallyRefreshClientToken (S fuel) logger (p, w) =
  let '(err, s) := refreshAADToken (p, emit (EvSleep (refreshDuration p)) w) in
  match err with
  | Some e =>
      (Some (Some (errors_New ("Failed to refresh token: " ++ Error e))),
       (set_refreshDuration TIME_5_MINUTES (fst s),
        emit (EvLog "Failed to refresh token, retry in 5 minutes" e) (snd s)))
  | None => periodicallyRefreshClientToken fuel logger s
  end.
Proof.
  cbn [periodicallyRefreshClientToken].
  unfold bind at 1. unfold self at 1, gets at 1. cbn [fst snd].
  destruct (ctx p). cbn [Done].
  unfold bind at 1. unfold self at 1, gets at 1. cbn [fst snd].
  unfold bind at 1. unfold record at 1, outside at 1, modify at 1. cbn [fst snd].
  unfold bind at 1.
  destruct (refreshAADToken (p, emit (EvSleep (refreshDuration p)) w))
    as [[e|] [p1 w1]]; reflexivity.
Qed.

(** C10: a failed call of [refreshAADToken] assigns [lastError] and no
    other field of the provider: token, refresh duration, percentage,
    options, context and client are as before.  The five-minute fallback is
    assigned by the round of [periodicallyRefreshClientToken] around it. *)
Theorem refreshAADToken_failure_frame (p : tokenProvider) (w : World)
    (e : error) (logger : ILogger) (fuel : nat) :
  answers w (calls w) (options p) = inr e ->
  let p1 := fst (snd (refreshAADToken (p, w))) in
  let p2 := fst (snd (periodicallyRefreshClientToken (S fuel) logger (p, w))) in
  p1 = set_lastError (Some e) p
  /\ token p1 = token p
  /\ refreshDuration p1 = refreshDuration p
  /\ userConfiguredDurationPercentage p1 = userConfiguredDurationPercentage p
  /\ options p1 = options p
  /\ p2 = set_refreshDuration TIME_5_MINUTES (set_lastError (Some e) p).
Proof.
  intros H p1 p2. subst p1 p2.
  rewrite (refreshAADToken_failure p w e H).
  rewrite periodicallyRefreshClientToken_round.
  rewrite (refreshAADToken_failure p (emit (EvSleep (refreshDuration p)) w) e H).
  repeat split.
Qed.

Lemma refreshAADToken_failure_frame_witness :
  answers (worldWith [inr (errorString "timeout")])
    (calls (worldWith [inr (errorString "timeout")]))
    (options (set_token "old" (providerWith 80))) = inr (errorString "timeout")
  /\ fst (snd (refreshAADToken (set_token "old" (providerWith 80),
                                worldWith [inr (errorString "timeout")])))
     = set_lastError (Some (errorString "timeout")) (set_token "old" (providerWith 80)).
Proof.
  assert (H : answers (worldWith [inr (errorString "timeout")])
    (calls (worldWith [inr (errorString "timeout")]))
    (options (set_token "old" (providerWith 80))) = inr (errorString "timeout"))
    by reflexivity.
  split; [exact H|].
  exact (proj1 (refreshAADToken_failure_frame
           (set_token "old" (providerWith 80))
           (worldWith [inr (errorString "timeout")]) (errorString "timeout")
           Logger 0%nat H)).
Defined.

(** The last element of a list that has a head, in terms of its tail. *)
Lemma last_after_head {A : Type} (l : list A) (a b : A) :
  last (a :: l) b = last l a.
Proof.
  revert a b. induction l as [|x l IH]; intros a b; [reflexivity|].
  change (last (a :: x :: l) b) with (last (x :: l) b).
  rewrite (IH x b). symmetry. apply IH.
Qed.

(** C4: when, after any number of successful background refreshes, an
    attempt fails, the loop stores the error, sets [refreshDuration] to five
    minutes and returns.  However much longer it is left to run (any fuel
    above the number of rounds made), the outcome is the same final state:
    the credential client has been called once per round made and never
    again, and [GetAccessToken] returns the token of the last successful
    refresh together with the error. *)
Theorem periodicallyRefreshClientToken_stops_at_failure (logger : ILogger)
    (toks : list AccessToken) (e : error) (p : tokenProvider) (w : World) :
  (forall (i : nat) (tok : AccessToken),
      nth_error toks i = Some tok ->
      answers w (calls w + i)%nat (options p) = inl tok) ->
  answers w (calls w + List.length toks)%nat (options p) = inr e ->
  exists (p' : tokenProvider) (w' : World),
    (forall fuel : nat,
        (List.length toks < fuel)%nat ->
        periodicallyRefreshClientToken fuel logger (p, w) =
        (Some (Some (errors_New ("Failed to refresh token: " ++ Error e))),
         (p', w')))
    /\ lastError p' = Some e
    /\ refreshDuration p' = TIME_5_MINUTES
    /\ token p' = last (map Token toks) (token p)
    /\ calls w' = (calls w + List.length toks + 1)%nat
    /\ fst (GetAccessToken (p', w')) = (last (map Token toks) (token p), Some e)
    /\ snd (GetAccessToken (p', w')) = (p', w').
Proof.
  revert p w. induction toks as [|tok toks IH]; intros p w Hok Hfail.
  - cbn [List.length] in Hfail. rewrite Nat.add_0_r in Hfail.
    eexists; eexists; split.
    + intros [|fuel] Hf; [inversion Hf|].
      rewrite periodicallyRefreshClientToken_round.
      rewrite (refreshAADToken_failure p (emit (EvSleep (refreshDuration p)) w) e Hfail).
      cbn [fst snd]. reflexivity.
    + cbn. repeat split. lia.
  - pose proof (Hok 0%nat tok eq_refl) as H0. rewrite Nat.add_0_r in H0.
    destruct (refreshAADToken_success p (emit (EvSleep (refreshDuration p)) w) tok H0)
      as (d & n & Hs).
    match type of Hs with _ = (None, (?q, ?v)) =>
      destruct (IH q v) as (p' & w' & Hrun & Herr & Hdur & Htok & Hcalls & Hget & Hsame)
    end.
    + intros i t Hi. unfold emit. cbn [calls answers options].
      replace (S (calls w) + i)%nat with (calls w + S i)%nat by lia.
      apply Hok. exact Hi.
    + unfold emit. cbn [calls answers options List.length] in *.
      replace (S (calls w) + List.length toks)%nat
        with (calls w + S (List.length toks))%nat by lia.
      exact Hfail.
    + exists p', w'. split.
      * intros [|fuel] Hf; [inversion Hf|].
        rewrite periodicallyRefreshClientToken_round, Hs.
        apply Hrun. cbn [List.length] in Hf. lia.
      * unfold emit in Hcalls. cbn [token calls] in Htok, Hcalls.
        cbn [map]. rewrite last_after_head. cbn [List.length].
        repeat split; try assumption. lia.
Qed.

Lemma periodicallyRefreshClientToken_stops_at_failure_witness :
  exists (p' : tokenProvider) (w' : World),
    periodicallyRefreshClientToken 5 Logger
      (providerWith 80,
       worldWith [inl (mkAccessToken "second" (3600 * Second));
                  inr (errorString "timeout")])
    = (Some (Some (errors_New "Failed to refresh token: timeout")), (p', w'))
    /\ lastError p' = Some (errorString "timeout")
    /\ refreshDuration p' = TIME_5_MINUTES
    /\ token p' = "second"%string
    /\ calls w' = 2%nat.
Proof.
  destruct (periodicallyRefreshClientToken_stops_at_failure Logger
              [mkAccessToken "second" (3600 * Second)] (errorString "timeout")
              (providerWith 80)
              (worldWith [inl (mkAccessToken "second" (3600 * Second));
                          inr (errorString "timeout")]))
    as (p' & w' & Hrun & Herr & Hdur & Htok & Hcalls & _).
  - intros [|[|i]] tok Hi; simpl in Hi; try discriminate Hi.
    injection Hi as <-. reflexivity.
  - reflexivity.
  - exists p', w'. split; [apply Hrun; simpl; lia|].
    repeat split; assumption.
Defined.

(** ** Construction *)

Lemma started_app (w : World) (evs : list Event) (w' : World) :
  trace w' = trace w ++ evs ->
  Forall (fun ev => match ev with EvGo _ => False | _ => True end) evs ->
  started w' = started w.
Proof.
  intros Ht Hall. unfold started. rewrite Ht, filter_app, length_app.
  replace (filter _ evs) with (@nil Event); [apply Nat.add_0_r|].
  clear Ht. induction Hall as [|ev evs Hev _ IH]; [reflexivity|].
  cbn [filter]. destruct ev; try contradiction; exact IH.
Qed.

(** C7, as stated, fails: an absent (empty) audience is not checked; with a
    configuration, a logger and a credential client that answers,
    construction succeeds and starts the background task. *)
Lemma NewTokenProvider_accepts_empty_audience :
  let r := NewTokenProvider "" (Some (mkConfiguration 80)) (Some Logger)
             (worldWith [inl (mkAccessToken "first" (3600 * Second))]) in
  fst (fst r) <> None
  /\ snd (fst r) = None
  /\ started (snd r) = 1%nat.
Proof.
  cbv zeta. repeat split. intros H; discriminate H.
Qed.

(** C7 (amended): [NewTokenProvider] returns an error, no provider and
    starts no background task whenever the configuration or the logger is
    nil, the credential client cannot be created, or the first token fetch
    fails; with a nil configuration or logger it returns the error
    "NewTokenProvider: Required arguments canot be nil" at once, before
    touching the credential client.  The audience is not checked. *)
Theorem NewTokenProvider_fails (audience : string)
    (config : option IConfiguration) (logger : option ILogger) (w : World) :
  config = None \/ logger = None
  \/ (exists e : error, newCredential w = inr e)
  \/ (exists e : error, answers w (calls w) (mkOptions [audience]) = inr e) ->
  let r := NewTokenProvider audience config logger w in
  fst (fst r) = None
  /\ snd (fst r) <> None
  /\ started (snd r) = started w
  /\ (config = None \/ logger = None ->
      r = ((None,
            Some (errors_New "NewTokenProvider: Required arguments canot be nil")),
           w)).
Proof.
  intros H r. subst r.
  destruct config as [config|].
  2:{ cbn. repeat split. intros E; discriminate E. }
  destruct logger as [logger|].
  2:{ cbn. repeat split. intros E; discriminate E. }
  assert (Hnil : ~ (Some config = None \/ Some logger = None))
    by (intros [E|E]; discriminate E).
  unfold NewTokenProvider, NewDefaultAzureCredential, bind, gets, ret.
  destruct (newCredential w) as [cred|e0] eqn:Hcred.
  - destruct H as [E|[E|[[e E]|[e E]]]]; try discriminate E.
    rewrite (refreshAADToken_failure
               (mkTokenProvider "" Background None
                  (GetAadTokenRefreshDurationInPercentage config) 0 cred
                  (mkOptions [audience])) w e E).
    repeat split; try (intros X; discriminate X); try tauto.
    apply (started_app w [EvCounter 1; EvSpan "refreshAADToken" false]).
    + unfold emit. cbn [trace]. rewrite <- app_assoc. reflexivity.
    + repeat constructor.
  - cbn [fst snd]. repeat split; try (intros X; discriminate X); tauto.
Qed.

Lemma NewTokenProvider_fails_witness :
  (exists e : error,
      answers (worldWith [inr (errorString "denied")])
        (calls (worldWith [inr (errorString "denied")]))
        (mkOptions ["audience"%string]) = inr e)
  /\ fst (fst (NewTokenProvider "audience" (Some (mkConfiguration 80))
                 (Some Logger) (worldWith [inr (errorString "denied")])))
     = None.
Proof.
  assert (H : exists e : error,
      answers (worldWith [inr (errorString "denied")])
        (calls (worldWith [inr (errorString "denied")]))
        (mkOptions ["audience"%string]) = inr e)
    by (exists (errorString "denied"); reflexivity).
  split; [exact H|].
  exact (proj1 (NewTokenProvider_fails "audience" (Some (mkConfiguration 80))
                  (Some Logger) (worldWith [inr (errorString "denied")])
                  (or_intror (or_intror (or_intror H))))).
Defined.

(** * Further properties of the code *)

(** ** The calculator, whatever the clock reads *)

(** X1: whatever the clock reads and whatever the percentage,
    [getRefreshDuration] returns either one minute after its last reading
    of the clock, or an instant that is strictly before the expiry of the
    token and at most ten seconds before its third reading. *)
Theorem getRefreshDuration_fallback_or_before_expiry (accessToken : AccessToken)
    (p : tokenProvider) (w : World) :
  let t := fst (getRefreshDuration accessToken (p, w)) in
  t = clock w (3 + ticks w) + 1 * Minute
  \/ (clock w (2 + ticks w) - 10 * Second <= t < ExpiresOn accessToken).
Proof.
  unfold getRefreshDuration, bind, outside, self, gets, ret, time_Now, Before,
    Add, UTC, TIME_1_MINUTES.
  cbn [fst snd tick clock ticks Nat.add].
  replace (mul (-10) Second) with (- (10 * Second)) by reflexivity.
  rewrite Z.add_opp_r.
  match goal with |- context [?c <? ?th] => destruct (Z.ltb_spec c th) as [H1|H1] end;
    cbn [fst snd tick clock ticks]; [left; reflexivity|].
  match goal with |- context [?c <? ExpiresOn accessToken] =>
    destruct (Z.ltb_spec c (ExpiresOn accessToken)) as [H2|H2] end;
    cbn [fst snd tick clock ticks]; [right; split; assumption|left; reflexivity].
Qed.

(** ** The calculator at the ends of the percentage *)

(** X2: at percentage 0 the candidate is the expiry itself, so the result
    is always [now + 1 minute], for every expiry whose lifetime times 100
    fits a [Duration]. *)
Theorem getRefreshDuration_percentage_zero (accessToken : AccessToken)
    (p : tokenProvider) (w : World) (now : Time) :
  userConfiguredDurationPercentage p = 0 ->
  (ExpiresOn accessToken - now) * 100 <= maxDuration ->
  fst (getRefreshDuration accessToken (p, freeze now w)) = now + 1 * Minute.
Proof.
  intros Hp Hfit.
  destruct (Z.le_gt_cases (ExpiresOn accessToken) now) as [Hle|Hgt].
  - apply getRefreshDuration_expired; [rewrite Hp; lia|exact Hle].
  - rewrite getRefreshDuration_frozen. cbv zeta. rewrite Hp.
    rewrite (userConfiguredTimeFromNow_exact Spec.Truncate)
      by (try lia; rewrite Z.sub_0_r; exact Hfit).
    unfold Spec.candidate, Spec.remaining, Spec.divide.
    rewrite Z.sub_0_r, Z.quot_mul by lia.
    replace (now + (ExpiresOn accessToken - now)) with (ExpiresOn accessToken) by lia.
    rewrite Z.ltb_irrefl.
    destruct (_ <? now - 10 * Second); reflexivity.
Qed.

Lemma getRefreshDuration_percentage_zero_witness :
  userConfiguredDurationPercentage (providerWith 0) = 0
  /\ (ExpiresOn (mkAccessToken "t" (6000 * Second)) - 0) * 100 <= maxDuration
  /\ fst (getRefreshDuration (mkAccessToken "t" (6000 * Second))
            (providerWith 0, freeze 0 quietWorld)) = 0 + 1 * Minute.
Proof.
  assert (H1 : userConfiguredDurationPercentage (providerWith 0) = 0)
    by reflexivity.
  assert (H2 : (ExpiresOn (mkAccessToken "t" (6000 * Second)) - 0) * 100
               <= maxDuration)
    by (vm_compute; intros H; discriminate H).
  split; [exact H1|split; [exact H2|]].
  exact (getRefreshDuration_percentage_zero (mkAccessToken "t" (6000 * Second))
           (providerWith 0) quietWorld 0 H1 H2).
Defined.

(** The [uint8] difference [100 - p] for a percentage above 100. *)
Lemma sub8_above_100 (p : Z) : 100 < p < 256 -> sub8 100 p = 356 - p.
Proof.
  intros H. unfold sub8, wrap8.
  replace (100 - p) with ((356 - p) + (-1) * 2 ^ 8) by lia.
  rewrite Z.mod_add by lia. apply Z.mod_small. lia.
Qed.

(** X3: a percentage above 100 makes the [uint8] difference [100 - p] wrap
    to [356 - p], a factor above 100; for a token that is still valid the
    candidate then lies at or after the expiry and the result is
    [now + 1 minute]. *)
Theorem getRefreshDuration_percentage_above_100 (accessToken : AccessToken)
    (p : tokenProvider) (w : World) (now : Time) :
  100 < userConfiguredDurationPercentage p < 256 ->
  now < ExpiresOn accessToken ->
  (ExpiresOn accessToken - now) * (356 - userConfiguredDurationPercentage p)
    <= maxDuration ->
  fst (getRefreshDuration accessToken (p, freeze now w)) = now + 1 * Minute.
Proof.
  intros Hp Hlt Hfit. rewrite getRefreshDuration_frozen. cbv zeta.
  unfold userConfiguredTimeFromNow, Add. rewrite sub8_above_100 by assumption.
  set (k := 356 - userConfiguredDurationPercentage p) in *.
  set (r := ExpiresOn accessToken - now) in *.
  assert (Hk : 100 < k <= 255) by (subst k; lia).
  assert (Hr : 0 < r) by (subst r; lia).
  assert (Hrange : r <= maxDuration) by nia.
  rewrite Sub_exact by (fold r; unfold minDuration, maxDuration in *; lia).
  fold r. unfold mul.
  rewrite wrap64_small by (unfold minDuration, maxDuration in *; nia).
  rewrite quo_exact by (unfold minDuration, maxDuration in *; nia).
  pose proof (Z.quot_le_mono (r * 100) (k * r) 100 ltac:(lia) ltac:(nia)) as Hq.
  rewrite Z.quot_mul in Hq by lia.
  destruct (Z.ltb_spec (now + Z.quot (k * r) 100) (now - 10 * Second));
    [reflexivity|].
  destruct (Z.ltb_spec (now + Z.quot (k * r) 100) (ExpiresOn accessToken));
    [subst r; lia|reflexivity].
Qed.

Lemma getRefreshDuration_percentage_above_100_witness :
  100 < userConfiguredDurationPercentage (providerWith 200) < 256
  /\ 0 < ExpiresOn (mkAccessToken "t" (6000 * Second))
  /\ (ExpiresOn (mkAccessToken "t" (6000 * Second)) - 0)
       * (356 - userConfiguredDurationPercentage (providerWith 200)) <= maxDuration
  /\ fst (getRefreshDuration (mkAccessToken "t" (6000 * Second))
            (providerWith 200, freeze 0 quietWorld)) = 0 + 1 * Minute.
Proof.
  assert (H1 : 100 < userConfiguredDurationPercentage (providerWith 200) < 256)
    by (simpl; lia).
  assert (H0 : 0 < ExpiresOn (mkAccessToken "t" (6000 * Second))) by reflexivity.
  assert (H2 : (ExpiresOn (mkAccessToken "t" (6000 * Second)) - 0)
       * (356 - userConfiguredDurationPercentage (providerWith 200)) <= maxDuration)
    by (vm_compute; intros H; discriminate H).
  split; [exact H1|split; [exact H0|split; [exact H2|]]].
  exact (getRefreshDuration_percentage_above_100
           (mkAccessToken "t" (6000 * Second)) (providerWith 200) quietWorld 0
           H1 H0 H2).
Defined.

(** ** The calculator in its normal branch *)

(** The result for a valid token at a percentage between 1 and 100. *)
Lemma getRefreshDuration_scaled (accessToken : AccessToken)
    (p : tokenProvider) (w : World) (now : Time) :
  1 <= userConfiguredDurationPercentage p <= 100 ->
  now < ExpiresOn accessToken ->
  (ExpiresOn accessToken - now) * (100 - userConfiguredDurationPercentage p)
    <= maxDuration ->
  fst (getRefreshDuration accessToken (p, freeze now w)) =
  now + Z.quot ((ExpiresOn accessToken - now)
                * (100 - userConfiguredDurationPercentage p)) 100.
Proof.
  intros Hp Hlt Hfit. rewrite getRefreshDuration_frozen. cbv zeta.
  unfold userConfiguredTimeFromNow, Add.
  rewrite scaled_exact by (assumption || lia).
  set (r := ExpiresOn accessToken - now) in *.
  set (k := 100 - userConfiguredDurationPercentage p) in *.
  assert (Hr : 0 < r) by (subst r; lia).
  assert (Hk : 0 <= k <= 99) by (subst k; lia).
  pose proof (Z.quot_pos (r * k) 100 ltac:(nia) ltac:(lia)) as Hq0.
  pose proof (Z.quot_lt_upper_bound (r * k) 100 r ltac:(nia) ltac:(lia)
                ltac:(nia)) as Hq1.
  unfold Second.
  destruct (Z.ltb_spec (now + Z.quot (r * k) 100) (now - 10 * 1000000000));
    [lia|].
  destruct (Z.ltb_spec (now + Z.quot (r * k) 100) (ExpiresOn accessToken));
    [reflexivity|subst r; lia].
Qed.

(** X4: for a token that is still valid and a percentage between 1 and 100
    (the product fitting a [Duration]), the fallback is never taken: the
    result is [now] plus the scaled lifetime, at or after [now] and strictly
    before the expiry. *)
Theorem getRefreshDuration_before_expiry (accessToken : AccessToken)
    (p : tokenProvider) (w : World) (now : Time) :
  1 <= userConfiguredDurationPercentage p <= 100 ->
  now < ExpiresOn accessToken ->
  (ExpiresOn accessToken - now) * (100 - userConfiguredDurationPercentage p)
    <= maxDuration ->
  let t := fst (getRefreshDuration accessToken (p, freeze now w)) in
  t = now + Z.quot ((ExpiresOn accessToken - now)
                    * (100 - userConfiguredDurationPercentage p)) 100
  /\ now <= t < ExpiresOn accessToken.
Proof.
  intros Hp Hlt Hfit t. subst t.
  rewrite getRefreshDuration_scaled by assumption.
  split; [reflexivity|].
  set (r := ExpiresOn accessToken - now) in *.
  set (k := 100 - userConfiguredDurationPercentage p) in *.
  assert (Hr : 0 < r) by (subst r; lia).
  assert (Hk : 0 <= k <= 99) by (subst k; lia).
  pose proof (Z.quot_pos (r * k) 100 ltac:(nia) ltac:(lia)) as Hq0.
  pose proof (Z.quot_lt_upper_bound (r * k) 100 r ltac:(nia) ltac:(lia)
                ltac:(nia)) as Hq1.
  subst r. lia.
Qed.

Lemma getRefreshDuration_before_expiry_witness :
  1 <= userConfiguredDurationPercentage (providerWith 80) <= 100
  /\ 0 < ExpiresOn (mkAccessToken "t" (6000 * Second))
  /\ (ExpiresOn (mkAccessToken "t" (6000 * Second)) - 0)
       * (100 - userConfiguredDurationPercentage (providerWith 80)) <= maxDuration
  /\ fst (getRefreshDuration (mkAccessToken "t" (6000 * Second))
            (providerWith 80, freeze 0 quietWorld))
     = 0 + Z.quot ((ExpiresOn (mkAccessToken "t" (6000 * Second)) - 0)
                   * (100 - userConfiguredDurationPercentage (providerWith 80))) 100.
Proof.
  assert (H1 : 1 <= userConfiguredDurationPercentage (providerWith 80) <= 100)
    by (simpl; lia).
  assert (H0 : 0 < ExpiresOn (mkAccessToken "t" (6000 * Second))) by reflexivity.
  assert (H2 : (ExpiresOn (mkAccessToken "t" (6000 * Second)) - 0)
       * (100 - userConfiguredDurationPercentage (providerWith 80)) <= maxDuration)
    by (vm_compute; intros H; discriminate H).
  split; [exact H1|split; [exact H0|split; [exact H2|]]].
  exact (proj1 (getRefreshDuration_before_expiry
                  (mkAccessToken "t" (6000 * Second)) (providerWith 80)
                  quietWorld 0 H1 H0 H2)).
Defined.

(** X5: a larger percentage never schedules the refresh later: for the same
    valid token and two percentages between 1 and 100, the provider with
    the larger one gets a refresh time at or before the other's. *)
Theorem getRefreshDuration_antitone (accessToken : AccessToken)
    (p q : tokenProvider) (w v : World) (now : Time) :
  1 <= userConfiguredDurationPercentage p ->
  userConfiguredDurationPercentage p <= userConfiguredDurationPercentage q ->
  userConfiguredDurationPercentage q <= 100 ->
  now < ExpiresOn accessToken ->
  (ExpiresOn accessToken - now) * (100 - userConfiguredDurationPercentage p)
    <= maxDuration ->
  fst (getRefreshDuration accessToken (q, freeze now v))
  <= fst (getRefreshDuration accessToken (p, freeze now w)).
Proof.
  intros Hp Hpq Hq Hlt Hfit.
  rewrite (getRefreshDuration_scaled accessToken p) by (assumption || lia).
  rewrite (getRefreshDuration_scaled accessToken q) by (assumption || nia).
  apply Z.add_le_mono_l. apply Z.quot_le_mono; [lia|nia].
Qed.

Lemma getRefreshDuration_antitone_witness :
  fst (getRefreshDuration (mkAccessToken "t" (6000 * Second))
         (providerWith 90, freeze 0 quietWorld))
  <= fst (getRefreshDuration (mkAccessToken "t" (6000 * Second))
            (providerWith 80, freeze 0 quietWorld)).
Proof.
  refine (getRefreshDuration_antitone (mkAccessToken "t" (6000 * Second))
            (providerWith 80) (providerWith 90) quietWorld quietWorld 0
            _ _ _ _ _);
    first [reflexivity | vm_compute; intros H; discriminate H].
Defined.

(** ** What a refresh stores and emits *)

(** [getRefreshDuration] reads the clock and nothing else. *)
Lemma getRefreshDuration_state (accessToken : AccessToken) (p : tokenProvider)
    (w : World) :
  exists n : nat,
    snd (getRefreshDuration accessToken (p, w)) =
    (p, mkWorld (clock w) n (answers w) (calls w) (newCredential w) (trace w)).
Proof.
  unfold getRefreshDuration, bind, outside, self, gets, ret, time_Now, tick.
  cbn [fst snd clock ticks answers calls newCredential trace].
  destruct (Before _ _); [|destruct (Before _ _)];
    cbn [fst snd clock ticks answers calls newCredential trace];
    eexists; reflexivity.
Qed.

(** The duration a successful refresh stores, in terms of the calculator
    run on the provider that already holds the new token. *)
Lemma refreshAADToken_stores_delay (p : tokenProvider) (w : World)
    (tok : AccessToken) :
  answers w (calls w) (options p) = inl tok ->
  let s := (set_token (Token tok) (set_lastError None p),
            emit (EvCounter 1) (called w)) in
  refreshDuration (fst (snd (refreshAADToken (p, w)))) =
  Sub (fst (getRefreshDuration tok s))
      (clock w (ticks (snd (snd (getRefreshDuration tok s))))).
Proof.
  intros H s.
  unfold refreshAADToken, updateRefreshDuration, setToken, record, GetToken,
    time_Now, bind, ret, self, assign, outside, gets, modify, Store, Load.
  cbn [fst snd]. rewrite H. cbn [fst snd].
  fold s.
  destruct (getRefreshDuration_state tok (fst s) (snd s)) as [n Hn].
  change (fst s, snd s) with s in Hn.
  destruct (getRefreshDuration tok s) as [t s2]. cbn [snd] in Hn. subst s2.
  cbn [fst snd clock ticks refreshDuration set_refreshDuration UTC].
  reflexivity.
Qed.

(** Under a stopped clock the duration stored is the distance from [now]
    to the refresh time; [Sub] does not saturate. *)
Lemma refreshAADToken_delay_frozen (p : tokenProvider) (w : World)
    (now : Time) (tok : AccessToken) :
  answers w (calls w) (options p) = inl tok ->
  refreshDuration (fst (snd (refreshAADToken (p, freeze now w))))
  = fst (getRefreshDuration tok (p, freeze now w)) - now.
Proof.
  intros H.
  rewrite (refreshAADToken_stores_delay p (freeze now w) tok H). cbv zeta.
  change (emit (EvCounter 1) (called (freeze now w)))
    with (freeze now (emit (EvCounter 1) (called w))).
  cbn [clock freeze].
  rewrite !getRefreshDuration_frozen. cbv zeta.
  cbn [userConfiguredDurationPercentage set_token set_lastError].
  unfold userConfiguredTimeFromNow, Add.
  pose proof (wrap64_range
                (Z.quot (mul (sub8 100 (userConfiguredDurationPercentage p))
                           (Sub (ExpiresOn tok) now)) 100)) as Hq.
  fold (quo (mul (sub8 100 (userConfiguredDurationPercentage p))
               (Sub (ExpiresOn tok) now)) 100) in Hq.
  set (q := quo (mul (sub8 100 (userConfiguredDurationPercentage p))
                   (Sub (ExpiresOn tok) now)) 100) in *.
  unfold minDuration, maxDuration in Hq.
  destruct (Z.ltb_spec (now + q) (now - 10 * Second)) as [H1|H1];
    [|destruct (Z.ltb_spec (now + q) (ExpiresOn tok)) as [H2|H2]];
    apply Sub_exact; unfold minDuration, maxDuration, Minute, Second in *; lia.
Qed.

(** X6: under a clock stopped at [now], a successful refresh stores in
    [refreshDuration] exactly the distance from [now] to the refresh time
    the calculator returns for the new token; that delay is one minute, or
    it is at least -10 s and ends strictly before the token expires.  Holds
    for every percentage. *)
Theorem refreshAADToken_schedules_before_expiry (p : tokenProvider) (w : World)
    (now : Time) (tok : AccessToken) :
  answers w (calls w) (options p) = inl tok ->
  let d := refreshDuration (fst (snd (refreshAADToken (p, freeze now w)))) in
  d = fst (getRefreshDuration tok (p, freeze now w)) - now
  /\ (d = 1 * Minute
      \/ (- (10 * Second) <= d /\ now + d < ExpiresOn tok)).
Proof.
  intros H d. subst d.
  rewrite (refreshAADToken_delay_frozen p w now tok H).
  split; [reflexivity|].
  rewrite getRefreshDuration_frozen. cbv zeta.
  destruct (Z.ltb_spec
              (userConfiguredTimeFromNow now (ExpiresOn tok)
                 (userConfiguredDurationPercentage p))
              (now - 10 * Second)) as [H1|H1]; [left; lia|].
  destruct (Z.ltb_spec
              (userConfiguredTimeFromNow now (ExpiresOn tok)
                 (userConfiguredDurationPercentage p))
              (ExpiresOn tok)) as [H2|H2]; [right; lia|left; lia].
Qed.

Lemma refreshAADToken_schedules_before_expiry_witness :
  refreshDuration
    (fst (snd (refreshAADToken
                 (providerWith 80,
                  freeze 0 (worldWith [inl (mkAccessToken "new" (6000 * Second))])))))
  = fst (getRefreshDuration (mkAccessToken "new" (6000 * Second))
           (providerWith 80,
            freeze 0 (worldWith [inl (mkAccessToken "new" (6000 * Second))]))) - 0.
Proof.
  exact (proj1 (refreshAADToken_schedules_before_expiry (providerWith 80)
                  (worldWith [inl (mkAccessToken "new" (6000 * Second))]) 0
                  (mkAccessToken "new" (6000 * Second)) eq_refl)).
Defined.

(** X7: under a clock stopped at [now], after a successful refresh of a
    token that is still valid, at a percentage between 1 and 100 (the
    product fitting a [Duration]), the delay stored is the share
    (100 - percentage) / 100 of the remaining lifetime, rounded down; at
    percentage 100 it is zero, so the loop refreshes again without
    waiting. *)
Theorem refreshAADToken_delay_share (p : tokenProvider) (w : World)
    (now : Time) (tok : AccessToken) :
  answers w (calls w) (options p) = inl tok ->
  1 <= userConfiguredDurationPercentage p <= 100 ->
  now < ExpiresOn tok ->
  (ExpiresOn tok - now) * (100 - userConfiguredDurationPercentage p)
    <= maxDuration ->
  let d := refreshDuration (fst (snd (refreshAADToken (p, freeze now w)))) in
  d = Z.quot ((ExpiresOn tok - now)
              * (100 - userConfiguredDurationPercentage p)) 100
  /\ (userConfiguredDurationPercentage p = 100 -> d = 0).
Proof.
  intros H Hp Hlt Hfit d. subst d.
  rewrite (refreshAADToken_delay_frozen p w now tok H).
  rewrite getRefreshDuration_scaled by assumption.
  split; [lia|].
  intros E. rewrite E. simpl (100 - 100). rewrite Z.mul_0_r.
  change (Z.quot 0 100) with 0. lia.
Qed.

Lemma refreshAADToken_delay_share_witness :
  refreshDuration
    (fst (snd (refreshAADToken
                 (providerWith 100,
                  freeze 0 (worldWith [inl (mkAccessToken "new" (6000 * Second))])))))
  = 0.
Proof.
  refine (proj2 (refreshAADToken_delay_share (providerWith 100)
                   (worldWith [inl (mkAccessToken "new" (6000 * Second))]) 0
                   (mkAccessToken "new" (6000 * Second)) eq_refl _ _ _) eq_refl);
    first [reflexivity | simpl; lia | vm_compute; intros H; discriminate H].
Defined.

(** X8: every refresh attempt, successful or not, calls the credential
    client exactly once, adds exactly one to the counter and closes one
    span whose success flag tells whether a token came back; the error it
    returns is the one it leaves in [lastError]; percentage, options,
    context and client are not touched. *)
Theorem refreshAADToken_effects (p : tokenProvider) (w : World) :
  let r := refreshAADToken (p, w) in
  let p' := fst (snd r) in
  let w' := snd (snd r) in
  lastError p' = fst r
  /\ calls w' = S (calls w)
  /\ trace w' = trace w ++ [EvCounter 1;
                            EvSpan "refreshAADToken"
                              (match fst r with None => true | Some _ => false end)]
  /\ answers w' = answers w
  /\ userConfiguredDurationPercentage p' = userConfiguredDurationPercentage p
  /\ options p' = options p
  /\ ctx p' = ctx p
  /\ credentialClient p' = credentialClient p.
Proof.
  cbv zeta. destruct (answers w (calls w) (options p)) as [tok|e] eqn:H.
  - destruct (refreshAADToken_success p w tok H) as (d & n & Hs).
    rewrite Hs. cbn. repeat split.
  - rewrite (refreshAADToken_failure p w e H). unfold emit. cbn.
    rewrite <- app_assoc. repeat split.
Qed.

(** ** The loop, round after round *)

(** Rounds that succeed: the loop goes on from the state they leave. *)
Lemma periodicallyRefreshClientToken_successes (logger : ILogger)
    (toks : list AccessToken) (p : tokenProvider) (w : World) :
  (forall (i : nat) (tok : AccessToken),
      nth_error toks i = Some tok ->
      answers w (calls w + i)%nat (options p) = inl tok) ->
  exists (p' : tokenProvider) (w' : World),
    (forall fuel : nat,
        periodicallyRefreshClientToken (List.length toks + fuel) logger (p, w)
        = periodicallyRefreshClientToken fuel logger (p', w'))
    /\ token p' = last (map Token toks) (token p)
    /\ lastError p' = match toks with [] => lastError p | _ => None end
    /\ options p' = options p
    /\ userConfiguredDurationPercentage p' = userConfiguredDurationPercentage p
    /\ calls w' = (calls w + List.length toks)%nat
    /\ answers w' = answers w
    /\ started w' = started w.
Proof.
  revert p w. induction toks as [|tok toks IH]; intros p w Hok.
  - exists p, w. cbn. repeat split. lia.
  - pose proof (Hok 0%nat tok eq_refl) as H0. rewrite Nat.add_0_r in H0.
    destruct (refreshAADToken_success p (emit (EvSleep (refreshDuration p)) w) tok H0)
      as (d & n & Hs).
    match type of Hs with _ = (None, (?q, ?v)) =>
      destruct (IH q v) as (p' & w' & Hrun & Htok & Herr & Hopt & Hpct & Hcalls & Hans & Hst)
    end.
    + intros i t Hi. unfold emit. cbn [calls answers options].
      replace (S (calls w) + i)%nat with (calls w + S i)%nat by lia.
      apply Hok. exact Hi.
    + exists p', w'.
      unfold emit in Hcalls, Hans. cbn [token calls answers options lastError
        userConfiguredDurationPercentage] in Htok, Herr, Hopt, Hpct, Hcalls, Hans.
      split.
      { intros fuel. cbn [List.length Nat.add].
        rewrite periodicallyRefreshClientToken_round, Hs. apply Hrun. }
      cbn [map]. rewrite last_after_head. cbn [List.length].
      repeat split; try assumption.
      * destruct toks; assumption.
      * lia.
      * rewrite Hst.
        match goal with |- started ?v = _ =>
          apply (started_app w [EvSleep (refreshDuration p); EvCounter 1;
                                EvSpan "refreshAADToken" true] v)
        end.
        -- unfold emit. cbn [trace]. rewrite <- app_assoc. reflexivity.
        -- repeat constructor.
Qed.

(** X9: as long as the credential client answers with tokens the loop
    keeps running: after as many rounds as tokens it has not returned, has
    called the client once per round, holds the token fetched last and a
    nil error, and has started no goroutine. *)
Theorem periodicallyRefreshClientToken_keeps_running (logger : ILogger)
    (toks : list AccessToken) (p : tokenProvider) (w : World) :
  (forall (i : nat) (tok : AccessToken),
      nth_error toks i = Some tok ->
      answers w (calls w + i)%nat (options p) = inl tok) ->
  toks <> [] ->
  let r := periodicallyRefreshClientToken (List.length toks) logger (p, w) in
  fst r = None
  /\ fst (GetAccessToken (snd r)) = (last (map Token toks) (token p), None)
  /\ calls (snd (snd r)) = (calls w + List.length toks)%nat
  /\ started (snd (snd r)) = started w.
Proof.
  intros Hok Hne r. subst r.
  destruct (periodicallyRefreshClientToken_successes logger toks p w Hok)
    as (p' & w' & Hrun & Htok & Herr & _ & _ & Hcalls & _ & Hst).
  specialize (Hrun 0%nat). rewrite Nat.add_0_r in Hrun. rewrite Hrun.
  cbn [periodicallyRefreshClientToken ret fst snd GetAccessToken].
  unfold GetAccessToken, self, gets. cbn [fst snd].
  rewrite Htok, Herr. destruct toks; [contradiction|].
  repeat split; assumption.
Qed.

Lemma periodicallyRefreshClientToken_keeps_running_witness :
  fst (periodicallyRefreshClientToken 2 Logger
         (providerWith 80,
          worldWith [inl (mkAccessToken "a" (3600 * Second));
                     inl (mkAccessToken "b" (7200 * Second))])) = None.
Proof.
  refine (proj1 (periodicallyRefreshClientToken_keeps_running Logger
           [mkAccessToken "a" (3600 * Second); mkAccessToken "b" (7200 * Second)]
           (providerWith 80)
           (worldWith [inl (mkAccessToken "a" (3600 * Second));
                       inl (mkAccessToken "b" (7200 * Second))]) _ _)).
  - intros [|[|[|i]]] tok Hi; simpl in Hi; try discriminate Hi;
      injection Hi as <-; reflexivity.
  - intros H; discriminate H.
Defined.

(** X10: whatever the credential client answers and however long the loop
    runs, it leaves percentage, options, context and client of the provider
    as they were; and it returns only with an error: when it has returned,
    the error wraps the one now in [lastError], [refreshDuration] is five
    minutes and at most one call per round was made; while it has not, it
    has made exactly one call per round and [lastError] is nil after the
    first round. *)
Theorem periodicallyRefreshClientToken_outcome (fuel : nat) (logger : ILogger)
    (p : tokenProvider) (w : World) :
  let r := periodicallyRefreshClientToken fuel logger (p, w) in
  let p' := fst (snd r) in
  let w' := snd (snd r) in
  (userConfiguredDurationPercentage p' = userConfiguredDurationPercentage p
   /\ options p' = options p
   /\ ctx p' = ctx p
   /\ credentialClient p' = credentialClient p)
  /\ match fst r with
     | None =>
         calls w' = (calls w + fuel)%nat
         /\ (lastError p = None -> lastError p' = None)
         /\ (0 < fuel -> lastError p' = None)%nat
     | Some None => False
     | Some (Some err) =>
         exists e : error,
           err = errors_New ("Failed to refresh token: " ++ Error e)
           /\ lastError p' = Some e
           /\ refreshDuration p' = TIME_5_MINUTES
           /\ (calls w < calls w' <= calls w + fuel)%nat
     end.
Proof.
  cbv zeta. revert p w. induction fuel as [|fuel IH]; intros p w.
  - cbn. repeat split; try tauto; lia.
  - rewrite periodicallyRefreshClientToken_round.
    destruct (answers w (calls w) (options p)) as [tok|e] eqn:H.
    + destruct (refreshAADToken_success p (emit (EvSleep (refreshDuration p)) w)
                  tok H) as (d & n & Hs).
      rewrite Hs.
      match type of Hs with _ = (None, (?q, ?v)) =>
        pose proof (eq_refl : userConfiguredDurationPercentage q
                              = userConfiguredDurationPercentage p) as Q1;
        pose proof (eq_refl : options q = options p) as Q2;
        pose proof (eq_refl : ctx q = ctx p) as Q3;
        pose proof (eq_refl : credentialClient q = credentialClient p) as Q4;
        pose proof (eq_refl : calls v = S (calls w)) as Q5;
        pose proof (eq_refl : lastError q = None) as Q6;
        specialize (IH q v);
        set (q0 := q) in *; set (v0 := v) in *; clearbody q0 v0
      end.
      destruct IH as [(I1 & I2 & I3 & I4) IH].
      split; [repeat split; congruence|].
      destruct (fst (periodicallyRefreshClientToken fuel logger (q0, v0)))
        as [[err|]|].
      * destruct IH as (e & He & Hl & Hd & Hc).
        exists e. repeat split; try assumption; lia.
      * exact IH.
      * destruct IH as (Hc & Hn & _).
        repeat split; try (intros; apply Hn; exact Q6). lia.
    + rewrite (refreshAADToken_failure p (emit (EvSleep (refreshDuration p)) w)
                 e H).
      unfold emit. cbn. split; [repeat split|].
      exists e. repeat split; lia.
Qed.

(** ** Construction, case by case *)

(** X11: with a configuration and a logger, [NewTokenProvider] has three
    outcomes.  If the credential client cannot be created, its error is
    returned as it is and nothing else happens: no token is requested.  If
    the first fetch fails, the error returned is the client's, prefixed with
    "Failed to get access token: ", after exactly one request and one failed
    span.  Otherwise the provider returned holds the token fetched, a nil
    error, the configured percentage and the audience as its only scope,
    after exactly one request, and the single goroutine started is the last
    thing that happened. *)
Theorem NewTokenProvider_outcome (audience : string) (config : IConfiguration)
    (logger : ILogger) (w : World) :
  let r := NewTokenProvider audience (Some config) (Some logger) w in
  match newCredential w with
  | inr e => r = ((None, Some e), w)
  | inl cred =>
      match answers w (calls w) (mkOptions [audience]) with
      | inr e =>
          fst r = (None,
                   Some (errors_New ("Failed to get access token: " ++ Error e)))
          /\ calls (snd r) = S (calls w)
          /\ trace (snd r)
             = trace w ++ [EvCounter 1; EvSpan "refreshAADToken" false]
      | inl tok =>
          exists p0 : tokenProvider,
            fst r = (Some p0, None)
            /\ token p0 = Token tok
            /\ lastError p0 = None
            /\ userConfiguredDurationPercentage p0
               = GetAadTokenRefreshDurationInPercentage config
            /\ options p0 = mkOptions [audience]
            /\ credentialClient p0 = cred
            /\ calls (snd r) = S (calls w)
            /\ trace (snd r)
               = trace w ++ [EvCounter 1; EvSpan "refreshAADToken" true;
                             EvGo "periodicallyRefreshClientToken"]
      end
  end.
Proof.
  cbv zeta.
  destruct (newCredential w) as [cred|e0] eqn:Hcred.
  - destruct (answers w (calls w) (mkOptions [audience])) as [tok|e] eqn:Hans.
    + destruct (NewTokenProvider_success audience config logger w cred tok
                  Hcred Hans) as (d & n & Hs).
      rewrite Hs. eexists. cbn. repeat split.
    + unfold NewTokenProvider, NewDefaultAzureCredential, bind, gets, ret.
      rewrite Hcred.
      rewrite (refreshAADToken_failure
                 (mkTokenProvider "" Background None
                    (GetAadTokenRefreshDurationInPercentage config) 0 cred
                    (mkOptions [audience])) w e Hans).
      unfold emit. cbn. rewrite <- app_assoc. repeat split.
  - unfold NewTokenProvider, NewDefaultAzureCredential, bind, gets, ret.
    rewrite Hcred. reflexivity.
Qed.

(** ** From construction to the end of the loop *)

(** X12: the whole life of a provider.  If the credential client can be
    created, answers the first request with a token, the following requests
    with the tokens of a list and the one after with an error, then
    construction succeeds and the loop started on the provider returns
    after one round per token and one more; from then on [GetAccessToken]
    returns the last token fetched (the first one if the list is empty)
    with that error, the client has been asked once per token and once for
    the failure, and one goroutine was started in all. *)
Theorem provider_lifecycle (audience : string) (config : IConfiguration)
    (logger : ILogger) (w : World) (cred : TokenCredential)
    (tok0 : AccessToken) (toks : list AccessToken) (e : error) :
  newCredential w = inl cred ->
  answers w (calls w) (mkOptions [audience]) = inl tok0 ->
  (forall (i : nat) (tok : AccessToken),
      nth_error toks i = Some tok ->
      answers w (calls w + 1 + i)%nat (mkOptions [audience]) = inl tok) ->
  answers w (calls w + 1 + List.length toks)%nat (mkOptions [audience]) = inr e ->
  exists (p0 : tokenProvider) (w1 : World),
    NewTokenProvider audience (Some config) (Some logger) w
      = ((Some p0, None), w1)
    /\ forall fuel : nat,
        (List.length toks < fuel)%nat ->
        let r := periodicallyRefreshClientToken fuel logger (p0, w1) in
        fst r = Some (Some (errors_New ("Failed to refresh token: " ++ Error e)))
        /\ fst (GetAccessToken (snd r))
           = (last (map Token toks) (Token tok0), Some e)
        /\ calls (snd (snd r)) = (calls w + List.length toks + 2)%nat
        /\ started (snd (snd r)) = S (started w).
Proof.
  intros Hcred H0 Hok Hfail.
  destruct (NewTokenProvider_success audience config logger w cred tok0 Hcred H0)
    as (d & n & Hs).
  rewrite Hs.
  match type of Hs with _ = ((Some ?q, None), ?v) =>
    pose proof (eq_refl : options q = mkOptions [audience]) as Q1;
    pose proof (eq_refl : token q = Token tok0) as Q2;
    pose proof (eq_refl : calls v = S (calls w)) as Q3;
    pose proof (eq_refl : answers v = answers w) as Q4;
    assert (Q5 : started v = S (started w));
    [ unfold started; cbn [trace]; rewrite filter_app, length_app; cbn; lia |];
    set (p0 := q) in *; set (w1 := v) in *; clearbody p0 w1
  end.
  exists p0, w1. split; [reflexivity|].
  intros fuel Hfuel.
  destruct (periodicallyRefreshClientToken_successes logger toks p0 w1)
    as (p' & w' & Hrun & Htok & _ & Hopt & _ & Hcalls & Hans & Hst).
  { intros i tok Hi. rewrite Q1, Q3, Q4.
    replace (S (calls w) + i)%nat with (calls w + 1 + i)%nat by lia.
    apply Hok. exact Hi. }
  replace fuel with (List.length toks + S (fuel - List.length toks - 1))%nat by lia.
  cbv zeta. rewrite Hrun, periodicallyRefreshClientToken_round.
  assert (Hf : answers (emit (EvSleep (refreshDuration p')) w')
                 (calls (emit (EvSleep (refreshDuration p')) w')) (options p')
               = inr e).
  { unfold emit. cbn [answers calls]. rewrite Hans, Hcalls, Hopt, Q1, Q3, Q4.
    replace (S (calls w) + List.length toks)%nat
      with (calls w + 1 + List.length toks)%nat by lia.
    exact Hfail. }
  rewrite (refreshAADToken_failure p' _ e Hf).
  cbn [fst snd GetAccessToken]. unfold GetAccessToken, self, gets.
  cbn [fst snd token lastError set_refreshDuration set_lastError].
  rewrite Htok, Q2. repeat split.
  - unfold emit, called. cbn [calls]. lia.
  - rewrite <- Q5, <- Hst.
    match goal with |- started ?v = _ =>
      apply (started_app w'
               [EvSleep (refreshDuration p'); EvCounter 1;
                EvSpan "refreshAADToken" false;
                EvLog "Failed to refresh token, retry in 5 minutes" e] v)
    end.
    + unfold emit, called. cbn [trace]. rewrite <- !app_assoc. reflexivity.
    + repeat constructor.
Qed.

Lemma provider_lifecycle_witness :
  exists (p0 : tokenProvider) (w1 : World),
    NewTokenProvider "audience" (Some (mkConfiguration 80)) (Some Logger)
      (worldWith [inl (mkAccessToken "first" (3600 * Second));
                  inl (mkAccessToken "second" (3600 * Second));
                  inr (errorString "timeout")])
    = ((Some p0, None), w1)
    /\ fst (GetAccessToken
              (snd (periodicallyRefreshClientToken 4 Logger (p0, w1))))
       = ("second"%string, Some (errorString "timeout")).
Proof.
  destruct (provider_lifecycle "audience" (mkConfiguration 80) Logger
              (worldWith [inl (mkAccessToken "first" (3600 * Second));
                          inl (mkAccessToken "second" (3600 * Second));
                          inr (errorString "timeout")])
              DefaultAzureCredential
              (mkAccessToken "first" (3600 * Second))
              [mkAccessToken "second" (3600 * Second)]
              (errorString "timeout"))
    as (p0 & w1 & Hnew & Hloop).
  - reflexivity.
  - reflexivity.
  - intros [|[|i]] tok Hi; simpl in Hi; try discriminate Hi.
    injection Hi as <-. reflexivity.
  - reflexivity.
  - exists p0, w1. split; [exact Hnew|].
    exact (proj1 (proj2 (Hloop 4%nat ltac:(simpl; lia)))).
Defined.
